(** * Scroll-driven visibility of the navigation chrome

    A shallow embedding of [src/components/AppFrame/index.tsx] (the
    [useScrollShower] hook and the [AppFrame] component) and of the
    [RelatedArticle] component, together with the part of the host (the
    window's scroll listener list, React's hook cells) that their behaviour
    depends on.

    Scroll offsets and differences are TypeScript [number]s holding pixel
    counts; they are embedded as [Z].  The only arithmetic the source performs
    on them is the comparison [diff > 14]. *)

From Stdlib Require Import ZArith Bool List Lia.
From stdpp Require Import base decidable option numbers list gmap strings.
Import ListNotations.

(** ** Scroll samples *)

(** Modelled from the spec: the type of the payload [{ direction, diff }]
    handed to the callback is declared in [@/utils/scroll], which is not part
    of the sources.  The source compares [direction] with ['up'] and ['down']
    and [diff] with a number; the spec gives the direction the two values
    [up] and [down]. *)
Inductive Direction : Set := up | down.

#[global] Instance Direction_eq_dec : EqDecision Direction.
Proof. solve_decision. Defined.

Record ScrollInfo : Set := { direction : Direction; diff : Z }.

(** The state one controller holds: the previous offset kept by the listener
    and the [isShow] cell of [useState]. *)
Record Controller : Set := { previous : Z; isShow : bool }.

Module Scroll.

(** Modelled from the spec: the module [@/utils/scroll] is imported by
    [AppFrame/index.tsx] but is not part of the sources.  The spec gives
    [magnitude = |current - previous|]. *)
Definition magnitude (prev current : Z) : Z := Z.abs (current - prev).

(** Modelled from the spec: the direction of [@/utils/scroll], which is
    missing from the sources.  A decreasing position is [up] (toward the top
    of the content), an increasing one is [down].  The spec leaves the
    direction of a zero change open; it is reported as [down] here, and
    [zero_change_ignored] below shows that the choice is immaterial. *)
Definition directionOf (prev current : Z) : Direction :=
  if (current <? prev)%Z then up else down.

(** The payload for the move from [prev] to [current]. *)
Definition sample (prev current : Z) : ScrollInfo :=
  {| direction := directionOf prev current; diff := magnitude prev current |}.

(** Modelled from the spec: [scrollInfoEvent] of [@/utils/scroll], which is
    missing from the sources.  It wraps a callback into a scroll listener:
    on every event the listener hands the callback the direction and the
    magnitude measured against the stored previous position, and always
    stores the current position as the new previous one.  The callback acts
    on the flag cell. *)
Definition scrollInfoEvent (callback : ScrollInfo -> bool -> bool)
    (current : Z) (c : Controller) : Controller :=
  {| previous := current;
     isShow := callback (sample (previous c) current) (isShow c) |}.

End Scroll.

(** ** React primitives used by the hook *)

(** The nullish coalescing [v ?? d] on an optional argument. *)
Definition nullish {A : Type} (v : option A) (d : A) : A :=
  match v with
  | Some a => a
  | None => d
  end.

(** The setter returned by [useState]: the cell takes the value given. *)
Definition changeShow (v : bool) (cell : bool) : bool := v.

Module useScrollShower.

(** [useState(init ?? false)]: the value of the flag cell at mount. *)
Definition initial (init : option bool) : bool := nullish init false.

(** The arrow function passed to [scrollInfoEvent] (lines 10-16). *)
Definition callback (info : ScrollInfo) (cell : bool) : bool :=
  if (diff info >? 14)%Z && bool_decide (direction info = up) then
    changeShow true cell
  else if (diff info >? 14)%Z && bool_decide (direction info = down) then
    changeShow false cell
  else cell.

(** [const fn = scrollInfoEvent(...)]. *)
Definition fn : Z -> Controller -> Controller :=
  Scroll.scrollInfoEvent callback.

(** The controller after a sequence of scroll events, oldest first. *)
Definition run (c : Controller) (ys : list Z) : Controller :=
  fold_left (fun c' y => fn y c') ys c.

(** The successive controller states, one per event. *)
Fixpoint states (c : Controller) (ys : list Z) : list Controller :=
  match ys with
  | [] => []
  | y :: ys' => fn y c :: states (fn y c) ys'
  end.

(** Every magnitude of the sequence, each measured against the offset
    just before it, is at most 14. *)
Fixpoint jitter (prev : Z) (ys : list Z) : Prop :=
  match ys with
  | [] => True
  | y :: ys' => (Scroll.magnitude prev y <= 14)%Z /\ jitter y ys'
  end.

End useScrollShower.

(** ** The host: the window and its scroll listeners *)

Module Host.

(** A listener is a function object; it is identified by a number, as
    [addEventListener] and [removeEventListener] compare listeners by
    identity. *)
Abbreviation Listener := nat.

(** The part of the program state a scroll event can reach: the window's
    list of scroll listeners in registration order, the state of every
    controller (keyed by the identity of its listener [fn]), and what lies
    outside the controllers: the browser storage and the network requests
    issued so far. *)
Record World : Type := {
  listeners : list Listener;
  controllers : gmap nat Controller;
  storage : gmap string string;
  requests : list string
}.

Definition with_listeners (ls : list Listener) (w : World) : World :=
  {| listeners := ls; controllers := controllers w;
     storage := storage w; requests := requests w |}.

Definition with_controllers (cs : gmap nat Controller) (w : World) : World :=
  {| listeners := listeners w; controllers := cs;
     storage := storage w; requests := requests w |}.

(** A window with no scroll listener and no controller. *)
Definition emptyWorld : World :=
  {| listeners := []; controllers := ∅; storage := ∅; requests := [] |}.

(** [addEventListener('scroll', f)]: a listener already in the list is not
    added a second time. *)
Definition addEventListener (f : Listener) (w : World) : World :=
  if decide (f ∈ listeners w) then w
  else with_listeners (listeners w ++ [f]) w.

(** [removeEventListener('scroll', f)]: the listener is taken out of the
    list; removing a listener that is not in the list does nothing. *)
Definition removeEventListener (f : Listener) (w : World) : World :=
  with_listeners (filter (fun g => g ≠ f) (listeners w)) w.

End Host.

Module Lifecycle.
Import Host.

(** The first render of a component that calls [useScrollShower(init)]:
    [useState] creates the flag cell and [scrollInfoEvent] creates the
    listener [f], whose stored previous position starts at [p0].  (Later
    renders create further listeners, which the effect never registers: its
    dependency list is empty.) *)
Definition firstRender (f : Listener) (init : option bool) (p0 : Z)
    (w : World) : World :=
  with_controllers
    (<[f := {| previous := p0; isShow := useScrollShower.initial init |}]>
       (controllers w)) w.

(** The body of [useEffect] (line 19) and the cleanup it returns (line 21). *)
Definition effect (f : Listener) (w : World) : World := addEventListener f w.
Definition cleanup (f : Listener) (w : World) : World :=
  removeEventListener f w.

(** Activation of the owning component: first render, then the effect. *)
Definition mount (f : Listener) (init : option bool) (p0 : Z) (w : World)
    : World :=
  effect f (firstRender f init p0 w).

(** Deactivation of the owning component: React runs the cleanup. *)
Definition unmount (f : Listener) (w : World) : World := cleanup f w.

(** [return isShow]: the flag the hook hands to its caller. *)
Definition shown (f : Listener) (w : World) : option bool :=
  isShow <$> controllers w !! f.

(** The window calls the listener [f] with the current offset [y]. *)
Definition invoke (y : Z) (w : World) (f : Listener) : World :=
  with_controllers (alter (useScrollShower.fn y) f (controllers w)) w.

(** One scroll event at offset [y]: every registered listener is called,
    in registration order. *)
Definition dispatchScroll (y : Z) (w : World) : World :=
  foldl (invoke y) w (listeners w).

(** The event source keeps firing: a sequence of scroll events. *)
Definition scrolls (ys : list Z) (w : World) : World :=
  foldl (fun w' y => dispatchScroll y w') w ys.

End Lifecycle.

(** ** The [AppFrame] component *)

Module AppFrame.

(** [const isShowHeader = useScrollShower(true)]. *)
Definition init : option bool := Some true.

(** The template literal passed as [className] to [TheHeader]. *)
Definition headerClassName (isShowHeader : bool) : string :=
  "transform md:transform-none md:translate-y-0 transition-transform duration-300 delay-500 "
  +:+ (if isShowHeader then EmptyString else "-translate-y-full").

(** The template literal passed as [className] to [BottomNavigation]. *)
Definition navigationClassName (isShowHeader : bool) : string :=
  "transform md:hidden md:transform-none md:translate-y-0 transition-transform duration-300 delay-100 "
  +:+ (if isShowHeader then EmptyString else "translate-y-full").

(** What one render of [AppFrame] passes down to the two pieces of chrome. *)
Record Rendered : Set := {
  TheHeader : string;
  BottomNavigation : string
}.

Definition render (isShowHeader : bool) : Rendered :=
  {| TheHeader := headerClassName isShowHeader;
     BottomNavigation := navigationClassName isShowHeader |}.

(** A class attribute carries a class when the class is one of its
    white-space separated tokens. *)
Definition carries (className token : string) : bool :=
  bool_decide (token ∈ String.words className).

(** A render of the mounted component [f] in the world [w]. *)
Definition renderIn (f : nat) (w : Host.World) : option Rendered :=
  render <$> Lifecycle.shown f w.

End AppFrame.

(** ** The [RelatedArticle] component *)

(** [useMemo(compute, deps)]: the cell keeps the dependencies and the value of
    the last computation; the value is computed again only when the
    dependencies differ from the kept ones. *)
Definition useMemo {D A : Type} `{EqDecision D} (compute : unit -> A)
    (deps : D) (cell : option (D * A)) : A * option (D * A) :=
  match cell with
  | Some (d, v) =>
      if decide (d = deps) then (v, cell)
      else let v' := compute tt in (v', Some (deps, v'))
  | None => let v := compute tt in (v, Some (deps, v))
  end.

Module RelatedArticle.

Inductive DataType : Set := RECENT.

#[global] Instance DataType_eq_dec : EqDecision DataType.
Proof. solve_decision. Defined.

Record State : Set := { type : DataType }.

(** [{ type: 'recent' }], the only action. *)
Inductive Action : Set := recent.

Definition initialState : State := {| type := RECENT |}.

Definition reducer (state : State) (action : Action) : State :=
  {| type := RECENT |}.

Section Component.

(** The props of one headline; the type is declared in
    [@/components/ArticleHeadline], of which only the field [to] is used
    here. *)
Variable ArticleHeadlineProps : Type.
Variable to : ArticleHeadlineProps -> string.

(** The hook cells of one mounted component. *)
Record Hooks : Type := {
  state : State;
  memo : option (DataType * list ArticleHeadlineProps)
}.

(** [<li key={props.to}><ArticleHeadline {...props} /></li>]. *)
Record Li : Type := { key : string; headline : ArticleHeadlineProps }.

Definition li (props : ArticleHeadlineProps) : Li :=
  {| key := to props; headline := props |}.

(** The cells before the first render: [useReducer(reducer, initialState)]
    and an empty memo. *)
Definition mounted : Hooks := {| state := initialState; memo := None |}.

(** One render with the prop [articles]: the list items and the cells
    after it. *)
Definition render (articles : list ArticleHeadlineProps) (h : Hooks)
    : list Li * Hooks :=
  let '(data, m) :=
    useMemo (fun _ => match type (state h) with RECENT => articles end)
            (type (state h)) (memo h) in
  (map li data, {| state := state h; memo := m |}).

(** A dispatched action goes through the reducer. *)
Definition dispatch (a : Action) (h : Hooks) : Hooks :=
  {| state := reducer (state h) a; memo := memo h |}.

(** The lists rendered by successive renders of one mounted component,
    one per value of the prop. *)
Fixpoint renders (h : Hooks) (props : list (list ArticleHeadlineProps))
    : list (list Li) :=
  match props with
  | [] => []
  | articles :: rest =>
      let '(items, h') := render articles h in items :: renders h' rest
  end.

End Component.

End RelatedArticle.

(** ** Sequences of payloads *)

Module Payloads.

(** The flag after the callback has been called with each payload of the
    list in turn, oldest first. *)
Definition feed (cell : bool) (infos : list ScrollInfo) : bool :=
  fold_left (fun cell' info => useScrollShower.callback info cell') infos cell.

End Payloads.

(** ** The [wrapper] of [MdxProvider] *)

Module MdxProvider.

(** The value of a prop: a string, or some other object known by its
    identity. *)
Inductive PropValue : Set :=
  | PString (s : string)
  | PObject (id : nat).

#[global] Instance PropValue_eq_dec : EqDecision PropValue.
Proof. solve_decision. Defined.

(** A React element: its type (a tag or a component name), its key and its
    props. *)
Record Element : Type := {
  type : string;
  key : option string;
  props : gmap string PropValue
}.

(** A child is an element or something that is not one (a text, a number,
    [null]); only an element has [props]. *)
Inductive Node : Type :=
  | Elem (e : Element)
  | Text (s : string).

(** The [children] prop as React passes it: nothing, the one child itself,
    or an array when there are several. *)
Inductive Children : Type :=
  | Absent
  | Single (n : Node)
  | Array (ns : list Node).

(** [child.props.className === 'footnotes']. *)
Definition isFootnotes (e : Element) : bool :=
  bool_decide (props e !! "className" = Some (PString "footnotes")).

(** [const { mdxType, originalType, ...rest } = child.props]. *)
Definition rest (e : Element) : gmap string PropValue :=
  delete "mdxType" (delete "originalType" (props e)).

(** The body of the arrow function given to [children.map] (lines 30-36),
    on an element: [<div key={1} {...rest} />] for the footnotes, the child
    itself otherwise.  (React keeps [key] out of the props of an element, so
    the spread of [rest] does not replace the key.) *)
Definition update (e : Element) : Element :=
  if isFootnotes e then {| type := "div"; key := Some "1"; props := rest e |}
  else e.

(** The same on any child; [None] is the [TypeError] raised by reading
    [className] of the [props] a non-element does not have. *)
Definition updateChild (n : Node) : option Node :=
  match n with
  | Elem e => Some (Elem (update e))
  | Text _ => None
  end.

(** [wrapper] (lines 29-38): the children of the fragment it returns.
    [None] is a [TypeError]: only an array has [map]. *)
Definition wrapper (children : Children) : option (list Node) :=
  match children with
  | Array ns => mapM updateChild ns
  | Single _ | Absent => None
  end.

(** The key of a child, when it has one. *)
Definition keyOf (n : Node) : option string :=
  match n with
  | Elem e => key e
  | Text _ => None
  end.

End MdxProvider.

(** ** The listener as a sequence of host operations *)

Module Operations.
Import Host.

(** What code running in the page can do to the world when a listener is
    called: call the setter of the calling component's flag cell, store the
    listener's previous position, write to the browser storage, issue a
    network request, register or remove a scroll listener. *)
Inductive Op : Type :=
  | SetShow (v : bool)
  | SetPrevious (y : Z)
  | SetItem (k v : string)
  | Fetch (url : string)
  | AddListener (g : nat)
  | RemoveListener (g : nat).

(** The operations that reach nothing but the calling controller's two
    fields. *)
Definition own (op : Op) : bool :=
  match op with
  | SetShow _ | SetPrevious _ => true
  | SetItem _ _ | Fetch _ | AddListener _ | RemoveListener _ => false
  end.

Definition with_storage (st : gmap string string) (w : World) : World :=
  {| listeners := listeners w; controllers := controllers w;
     storage := st; requests := requests w |}.

Definition with_requests (rs : list string) (w : World) : World :=
  {| listeners := listeners w; controllers := controllers w;
     storage := storage w; requests := rs |}.

Definition setShow (v : bool) (c : Controller) : Controller :=
  {| previous := previous c; isShow := changeShow v (isShow c) |}.

Definition setPrevious (y : Z) (c : Controller) : Controller :=
  {| previous := y; isShow := isShow c |}.

(** One operation, performed on behalf of the listener [f]. *)
Definition perform (f : nat) (op : Op) (w : World) : World :=
  match op with
  | SetShow v => with_controllers (alter (setShow v) f (controllers w)) w
  | SetPrevious y => with_controllers (alter (setPrevious y) f (controllers w)) w
  | SetItem k v => with_storage (<[k := v]> (storage w)) w
  | Fetch url => with_requests (requests w ++ [url]) w
  | AddListener g => addEventListener g w
  | RemoveListener g => removeEventListener g w
  end.

Definition execute (f : nat) (ops : list Op) (w : World) : World :=
  foldl (fun w' op => perform f op w') w ops.

(** The arrow function passed to [scrollInfoEvent] (lines 10-16), as the
    operations it performs: its body calls [changeShow] and nothing else. *)
Definition callbackOps (info : ScrollInfo) : list Op :=
  if (diff info >? 14)%Z && bool_decide (direction info = up) then
    [SetShow true]
  else if (diff info >? 14)%Z && bool_decide (direction info = down) then
    [SetShow false]
  else [].

(** Modelled from the spec: the listener built by [scrollInfoEvent] of
    [@/utils/scroll], which is missing from the sources, as the operations it
    performs.  The spec gives it no side effect beyond the state it holds: it
    calls the callback with the payload measured against the stored previous
    position and stores the current position. *)
Definition listenerOps (callback : ScrollInfo -> list Op) (current prev : Z)
    : list Op :=
  callback (Scroll.sample prev current) ++ [SetPrevious current].

(** The operations of one call of the listener [f] at offset [y]. *)
Definition program (f : nat) (y : Z) (w : World) : list Op :=
  match controllers w !! f with
  | Some c => listenerOps callbackOps y (previous c)
  | None => []
  end.

(** The world after the call. *)
Definition call (y : Z) (w : World) (f : nat) : World :=
  execute f (program f y w) w.

(** What a list of operations does to the controller of the listener that
    performs them. *)
Definition controllerAfter (ops : list Op) (c : Controller) : Controller :=
  fold_left (fun c' op =>
               match op with
               | SetShow v => setShow v c'
               | SetPrevious y => setPrevious y c'
               | _ => c'
               end) ops c.

(** What a list of operations does to a flag cell. *)
Definition cellAfter (ops : list Op) (cell : bool) : bool :=
  fold_left (fun cell' op =>
               match op with
               | SetShow v => changeShow v cell'
               | _ => cell'
               end) ops cell.

End Operations.

(** * Properties *)

(** ** The callback and the listener built from it *)

Module ScrollShowerFacts.
Import Scroll useScrollShower.
Local Open Scope Z_scope.

Lemma callback_over_up d b :
  (14 < d)%Z -> callback {| direction := up; diff := d |} b = true.
Proof.
  intros H. unfold callback; cbn. rewrite Z.gtb_ltb.
  apply Z.ltb_lt in H. now rewrite H.
Qed.

Lemma callback_over_down d b :
  (14 < d)%Z -> callback {| direction := down; diff := d |} b = false.
Proof.
  intros H. unfold callback; cbn. rewrite Z.gtb_ltb.
  apply Z.ltb_lt in H. now rewrite H.
Qed.

(** Above the threshold the callback sets the flag to a value read off the
    direction alone. *)
Lemma callback_over info b :
  (14 < diff info)%Z ->
  callback info b = bool_decide (direction info = up).
Proof.
  intros H. destruct info as [[|] d]; cbn in H.
  - now rewrite callback_over_up.
  - now rewrite callback_over_down.
Qed.

Lemma callback_under dir d b :
  (d <= 14)%Z -> callback {| direction := dir; diff := d |} b = b.
Proof.
  intros H. unfold callback; cbn. rewrite Z.gtb_ltb.
  apply Z.ltb_ge in H. now rewrite H.
Qed.

(** A zero change is ignored whichever direction is reported for it. *)
Lemma zero_change_ignored prev dir b :
  callback {| direction := dir; diff := magnitude prev prev |} b = b.
Proof. apply callback_under. unfold magnitude. lia. Qed.

Lemma directionOf_up prev y : (y < prev)%Z -> directionOf prev y = up.
Proof. intros H. unfold directionOf. apply Z.ltb_lt in H. now rewrite H. Qed.

Lemma directionOf_down prev y : (prev < y)%Z -> directionOf prev y = down.
Proof.
  intros H. unfold directionOf.
  destruct (Z.ltb_spec y prev); [lia | reflexivity].
Qed.

Lemma fn_previous y c : previous (fn y c) = y.
Proof. reflexivity. Qed.

Lemma fn_isShow y c :
  isShow (fn y c) = callback (sample (previous c) y) (isShow c).
Proof. reflexivity. Qed.

Lemma run_cons c y ys : run c (y :: ys) = run (fn y c) ys.
Proof. reflexivity. Qed.

(** C1: for a scroll event whose magnitude exceeds 14 the flag becomes true
    when the direction is [up] (position decreasing) and false when it is
    [down] (position increasing), whatever the flag was; from prior offset 100
    the offset 80 makes the flag true, and from prior offset 80 the offset 110
    makes it false. *)
Theorem direction_sets_flag :
  (forall d b, (14 < d)%Z ->
     callback {| direction := up; diff := d |} b = true /\
     callback {| direction := down; diff := d |} b = false) /\
  (forall c y, (14 < magnitude (previous c) y)%Z ->
     ((y < previous c)%Z -> isShow (fn y c) = true) /\
     ((previous c < y)%Z -> isShow (fn y c) = false)) /\
  (forall b, isShow (fn 80 {| previous := 100; isShow := b |}) = true) /\
  (forall b, isShow (fn 110 {| previous := 80; isShow := b |}) = false).
Proof.
  split; [|split; [|split]].
  - intros d b H. split; [now apply callback_over_up | now apply callback_over_down].
  - intros c y H. rewrite fn_isShow. unfold sample. split; intros Hd.
    + rewrite (directionOf_up _ _ Hd). now apply callback_over_up.
    + rewrite (directionOf_down _ _ Hd). now apply callback_over_down.
  - intros b. reflexivity.
  - intros b. reflexivity.
Qed.

Lemma direction_sets_flag_witness :
  14 < magnitude 100 80 /\ 80 < 100 /\
  isShow (fn 80 {| previous := 100; isShow := false |}) = true.
Proof.
  assert (M : 14 < magnitude 100 80) by (vm_compute; reflexivity).
  assert (D : 80 < 100) by lia.
  split; [exact M | split; [exact D |]].
  exact (proj1 (proj1 (proj2 direction_sets_flag)
                  {| previous := 100; isShow := false |} 80 M) D).
Defined.

(** C2: along a sequence of offsets in which every magnitude, measured
    against the offset just before, is at most 14, the flag keeps its initial
    value after every event. *)
Theorem threshold_invariant (c : Controller) (ys : list Z) :
  jitter (previous c) ys ->
  Forall (fun c' => isShow c' = isShow c) (states c ys).
Proof.
  revert c. induction ys as [|y ys IH]; intros c H; cbn [states].
  - constructor.
  - destruct H as [Hy Hrest].
    assert (Hkeep : isShow (fn y c) = isShow c).
    { rewrite fn_isShow. unfold sample. now apply callback_under. }
    constructor; [exact Hkeep|].
    specialize (IH (fn y c) Hrest).
    rewrite Hkeep in IH. exact IH.
Qed.

Lemma threshold_invariant_witness :
  jitter 100 [105; 108]%Z /\
  Forall (fun c' => isShow c' = true)
         (states {| previous := 100; isShow := true |} [105; 108]%Z).
Proof.
  assert (J : jitter 100 [105; 108]%Z).
  { cbn. unfold magnitude. repeat split; lia. }
  split; [exact J|].
  exact (threshold_invariant {| previous := 100; isShow := true |}
           [105; 108]%Z J).
Defined.

(** The same for the state reached at the end of the sequence. *)
Lemma threshold_invariant_run c ys :
  jitter (previous c) ys -> isShow (run c ys) = isShow c.
Proof.
  revert c. induction ys as [|y ys IH]; intros c H; [reflexivity|].
  destruct H as [Hy Hrest]. rewrite run_cons, (IH (fn y c) Hrest), fn_isShow.
  unfold sample. now apply callback_under.
Qed.

(** C3: every event, ignored or not, stores its offset as the previous
    position, so the next event is measured against it: after the ignored
    offset 105 (magnitude 5 from 100) the offset 95 has magnitude 10, measured
    from 105, and is ignored too; measured from 100 it would have been 5. *)
Theorem previous_always_updates :
  (forall c y, previous (fn y c) = y) /\
  (forall c y1 y2,
     isShow (fn y2 (fn y1 c)) = callback (sample y1 y2) (isShow (fn y1 c))) /\
  (forall b,
     let c1 := fn 105 {| previous := 100; isShow := b |} in
     diff (sample 100 105) = 5 /\ isShow c1 = b /\ previous c1 = 105 /\
     diff (sample (previous c1) 95) = 10 /\ magnitude 100 95 = 5 /\
     isShow (fn 95 c1) = b).
Proof.
  split; [|split].
  - intros c y. apply fn_previous.
  - intros c y1 y2. rewrite fn_isShow, fn_previous. reflexivity.
  - intros b. cbv zeta. repeat split.
Qed.

(** C4, as the spec words it, fails: an event toward the top whose magnitude
    is exactly 14 leaves a false flag false. *)
Lemma magnitude_14_counterexample :
  magnitude 100 86 = 14 /\ directionOf 100 86 = up /\
  callback (sample 100 86) false <> true /\
  isShow (fn 86 {| previous := 100; isShow := false |}) <> true.
Proof. repeat split; cbv; discriminate. Qed.

(** C4 (amended): the comparison with 14 is strict.  An event whose magnitude
    is exactly 14 leaves the flag as it was, for every prior flag and either
    direction; every magnitude above 14 updates the flag, to true toward the
    top and to false away from it. *)
Theorem threshold_is_strict :
  (forall dir b, callback {| direction := dir; diff := 14 |} b = b) /\
  (forall d b, 14 < d ->
     callback {| direction := up; diff := d |} b = true /\
     callback {| direction := down; diff := d |} b = false).
Proof.
  split.
  - intros dir b. now apply callback_under.
  - intros d b H. split; [now apply callback_over_up | now apply callback_over_down].
Qed.

Lemma threshold_is_strict_witness :
  14 < 15 /\
  callback {| direction := up; diff := 15 |} false = true /\
  callback {| direction := down; diff := 15 |} true = false.
Proof.
  assert (H : 14 < 15) by lia.
  split; [exact H | split].
  - exact (proj1 (proj2 threshold_is_strict 15 false H)).
  - exact (proj2 (proj2 threshold_is_strict 15 true H)).
Defined.

(** C9: above the threshold the new flag is determined by the direction of
    the event alone.  It does not depend on the prior flag: two runs of the
    update rule on the same event, one from a true flag and one from a false
    flag, end with equal flags.  Nor does it depend on the magnitude: any two
    events above the threshold with the same direction give the same flag
    from any two prior flags, and the two directions give different flags. *)
Theorem flag_determined_by_direction (i1 i2 : ScrollInfo) (b1 b2 : bool) :
  14 < diff i1 -> 14 < diff i2 ->
  callback i1 true = callback i1 false /\
  callback i1 b1 = bool_decide (direction i1 = up) /\
  (direction i1 = direction i2 -> callback i1 b1 = callback i2 b2) /\
  (direction i1 <> direction i2 -> callback i1 b1 <> callback i2 b2).
Proof.
  intros H1 H2.
  rewrite !(callback_over i1 _ H1), !(callback_over i2 _ H2).
  split; [reflexivity | split; [reflexivity | split]].
  - intros ->. reflexivity.
  - destruct (direction i1), (direction i2); intros Hd;
      try (exfalso; now apply Hd); vm_compute; discriminate.
Qed.

Lemma flag_determined_by_direction_witness :
  14 < diff (sample 80 110) /\ 14 < diff (sample 0 200) /\
  callback (sample 80 110) true = callback (sample 80 110) false /\
  callback (sample 80 110) true = callback (sample 0 200) false.
Proof.
  assert (H1 : 14 < diff (sample 80 110)) by (vm_compute; reflexivity).
  assert (H2 : 14 < diff (sample 0 200)) by (vm_compute; reflexivity).
  destruct (flag_determined_by_direction
              (sample 80 110) (sample 0 200) true false H1 H2)
    as (Hprior & _ & Hsame & _).
  exact (conj H1 (conj H2 (conj Hprior (Hsame eq_refl)))).
Defined.

(** The same for the listener: the prior flag of the controller does not
    show in the flag after a supra-threshold event. *)
Lemma fn_independent_of_prior prev y b1 b2 :
  14 < magnitude prev y ->
  isShow (fn y {| previous := prev; isShow := b1 |}) =
  isShow (fn y {| previous := prev; isShow := b2 |}).
Proof.
  intros H. rewrite !fn_isShow. cbn [previous isShow].
  now rewrite !(callback_over (sample prev y) _ H).
Qed.

(** Below or at the threshold the prior flag does show: the rule is not
    constant there. *)
Lemma prior_flag_kept_at_threshold dir d :
  d <= 14 ->
  callback {| direction := dir; diff := d |} true <>
  callback {| direction := dir; diff := d |} false.
Proof. intros H. rewrite !callback_under by exact H. discriminate. Qed.

End ScrollShowerFacts.

(** ** Attaching and detaching the listener *)

Module LifecycleFacts.
Import Host Lifecycle.

Lemma with_listeners_same w : with_listeners (listeners w) w = w.
Proof. now destruct w. Qed.

Lemma filter_absent (f : nat) (ls : list nat) :
  f ∉ ls -> filter (fun g => g ≠ f) ls = ls.
Proof.
  induction ls as [|g ls IH]; intros H; [reflexivity|].
  apply not_elem_of_cons in H as [Hne Hls].
  rewrite filter_cons_True by congruence.
  now rewrite IH.
Qed.

Lemma removed_not_listed f w : f ∉ listeners (removeEventListener f w).
Proof.
  unfold removeEventListener; cbn.
  intros H. apply list_elem_of_filter in H as [Hne _]. now apply Hne.
Qed.

Lemma added_listed f w : f ∈ listeners (addEventListener f w).
Proof.
  unfold addEventListener. case_decide; [assumption|]. cbn.
  apply elem_of_app. right. now apply list_elem_of_singleton.
Qed.

(** The listener list never holds a listener twice. *)
Lemma addEventListener_NoDup f w :
  NoDup (listeners w) -> NoDup (listeners (addEventListener f w)).
Proof.
  intros H. unfold addEventListener. case_decide; [assumption|]. cbn.
  apply NoDup_app. split; [assumption|]. split.
  - intros x Hx Hf. apply list_elem_of_singleton in Hf. now subst.
  - apply NoDup_singleton.
Qed.

Lemma removeEventListener_NoDup f w :
  NoDup (listeners w) -> NoDup (listeners (removeEventListener f w)).
Proof. intros H. unfold removeEventListener; cbn. now apply NoDup_filter. Qed.

(** Calling listeners changes neither the listener list nor anything
    outside the controllers. *)
Lemma calls_frame y ls w :
  listeners (foldl (invoke y) w ls) = listeners w /\
  storage (foldl (invoke y) w ls) = storage w /\
  requests (foldl (invoke y) w ls) = requests w.
Proof.
  revert w. induction ls as [|g ls IH]; intros w; [easy|].
  cbn [foldl]. destruct (IH (invoke y w g)) as (-> & -> & ->). easy.
Qed.

(** A controller whose listener is not among the called ones is left as it
    was. *)
Lemma calls_other y ls w (f : nat) :
  f ∉ ls -> controllers (foldl (invoke y) w ls) !! f = controllers w !! f.
Proof.
  revert w. induction ls as [|g ls IH]; intros w H; [reflexivity|].
  apply not_elem_of_cons in H as [Hne Hls].
  cbn [foldl]. rewrite (IH _ Hls). cbn.
  apply lookup_alter_ne. congruence.
Qed.

Lemma dispatchScroll_listeners y w :
  listeners (dispatchScroll y w) = listeners w.
Proof. apply calls_frame. Qed.

Lemma scrolls_listeners ys w : listeners (scrolls ys w) = listeners w.
Proof.
  revert w. induction ys as [|y ys IH]; intros w; [reflexivity|].
  cbn [scrolls foldl]. fold (scrolls ys (dispatchScroll y w)).
  now rewrite IH, dispatchScroll_listeners.
Qed.

Lemma scrolls_not_listed ys w (f : nat) :
  f ∉ listeners w -> controllers (scrolls ys w) !! f = controllers w !! f.
Proof.
  revert w. induction ys as [|y ys IH]; intros w H; [reflexivity|].
  cbn [scrolls foldl]. fold (scrolls ys (dispatchScroll y w)).
  rewrite IH by now rewrite dispatchScroll_listeners.
  now apply calls_other.
Qed.

(** While attached, the listener is called on every scroll event. *)
Lemma dispatchScroll_listed y w (f : nat) :
  NoDup (listeners w) -> f ∈ listeners w ->
  controllers (dispatchScroll y w) !! f =
  useScrollShower.fn y <$> controllers w !! f.
Proof.
  unfold dispatchScroll. generalize (listeners w) as ls.
  intros ls. revert w. induction ls as [|g ls IH]; intros w ND H.
  - now apply not_elem_of_nil in H.
  - apply NoDup_cons in ND as [Hg ND]. cbn [foldl].
    apply elem_of_cons in H as [->|H].
    + rewrite calls_other by assumption. cbn. apply lookup_alter_eq.
    + rewrite (IH _ ND H). cbn. rewrite lookup_alter_ne; [reflexivity|].
      intros ->. contradiction.
Qed.

(** C5: at mount the flag is the initial value the caller supplied, and
    false when the caller supplied none. *)
Theorem initial_flag :
  (forall b, useScrollShower.initial (Some b) = b) /\
  useScrollShower.initial None = false /\
  (forall f init p0 w,
     shown f (mount f init p0 w) = Some (useScrollShower.initial init)).
Proof.
  split; [reflexivity | split; [reflexivity |]].
  intros f init p0 w. unfold shown, mount, effect, addEventListener.
  case_decide; cbn; now rewrite lookup_insert_eq.
Qed.

(** C6: once the listener is detached no scroll event reaches the controller:
    neither its flag nor its stored position changes, however long the
    window keeps firing.  Detaching twice is detaching once, and detaching a
    listener that is not attached changes nothing. *)
Theorem detached_is_silent :
  (forall f w ys,
     controllers (scrolls ys (unmount f w)) !! f = controllers w !! f /\
     shown f (scrolls ys (unmount f w)) = shown f w) /\
  (forall f w, unmount f (unmount f w) = unmount f w) /\
  (forall f w, f ∉ listeners w -> unmount f w = w).
Proof.
  assert (Absent : forall f w, f ∉ listeners w -> unmount f w = w).
  { intros f w H. unfold unmount, cleanup, removeEventListener.
    rewrite filter_absent by assumption. apply with_listeners_same. }
  split; [|split].
  - intros f w ys.
    assert (E : controllers (scrolls ys (unmount f w)) !! f
                = controllers w !! f).
    { rewrite scrolls_not_listed by apply removed_not_listed. reflexivity. }
    split; [exact E|]. unfold shown. now rewrite E.
  - intros f w. apply Absent. apply removed_not_listed.
  - exact Absent.
Qed.

Lemma detached_is_silent_witness :
  (7 ∉ listeners (with_listeners [3] emptyWorld)) /\
  unmount 7 (with_listeners [3] emptyWorld) = with_listeners [3] emptyWorld.
Proof.
  assert (H : 7 ∉ listeners (with_listeners [3] emptyWorld)).
  { cbn. intros H. apply list_elem_of_singleton in H. discriminate H. }
  split; [exact H |].
  exact (proj2 (proj2 detached_is_silent) 7 (with_listeners [3] emptyWorld) H).
Defined.

(** One life of a controller: while it is attached a long scroll toward the
    bottom hides the chrome; after the detach the scroll back up no longer
    shows it. *)
Example attached_then_detached :
  let w1 := mount 7 (Some true) 0 emptyWorld in
  let w2 := scrolls [40]%Z w1 in
  let w3 := scrolls [0; 300; 0]%Z (unmount 7 w2) in
  shown 7 w1 = Some true /\ shown 7 w2 = Some false /\
  shown 7 w3 = Some false /\ listeners w3 = [] /\
  shown 7 (scrolls [0]%Z w2) = Some true.
Proof. vm_compute. repeat split. Qed.

End LifecycleFacts.

(** ** The chrome rendered by [AppFrame] *)

Module AppFrameFacts.
Import AppFrame.

Example header_tokens_hidden :
  String.words (TheHeader (render false)) =
  ["transform"; "md:transform-none"; "md:translate-y-0";
   "transition-transform"; "duration-300"; "delay-500"; "-translate-y-full"].
Proof. vm_compute. reflexivity. Qed.

Example navigation_tokens_shown :
  String.words (BottomNavigation (render true)) =
  ["transform"; "md:hidden"; "md:transform-none"; "md:translate-y-0";
   "transition-transform"; "duration-300"; "delay-100"].
Proof. vm_compute. reflexivity. Qed.

(** [AppFrame] starts with the chrome shown. *)
Lemma starts_shown : useScrollShower.initial init = true.
Proof. reflexivity. Qed.

(** C8: one flag drives both pieces of chrome.  In every render the header
    carries [-translate-y-full] exactly when the flag is false, the bottom
    navigation carries [translate-y-full] exactly when the flag is false, and
    so the one is hidden if and only if the other is. *)
Theorem chrome_hidden_together (isShowHeader : bool) :
  carries (TheHeader (render isShowHeader)) "-translate-y-full"
    = negb isShowHeader /\
  carries (BottomNavigation (render isShowHeader)) "translate-y-full"
    = negb isShowHeader /\
  carries (TheHeader (render isShowHeader)) "-translate-y-full"
    = carries (BottomNavigation (render isShowHeader)) "translate-y-full".
Proof. destruct isShowHeader; vm_compute; repeat split. Qed.

(** The same for a render of a mounted frame in any world. *)
Lemma chrome_hidden_together_in f w r :
  renderIn f w = Some r ->
  carries (TheHeader r) "-translate-y-full"
    = carries (BottomNavigation r) "translate-y-full".
Proof.
  unfold renderIn. destruct (Lifecycle.shown f w) as [b|]; cbn; [|discriminate].
  intros [= <-]. destruct b; vm_compute; reflexivity.
Qed.

End AppFrameFacts.

(** ** The list rendered by [RelatedArticle] *)

Module RelatedArticleFacts.
Import RelatedArticle.

Section Rendering.
Context {ArticleHeadlineProps : Type} (to : ArticleHeadlineProps -> string).

Lemma reducer_constant (s : State) (a : Action) :
  reducer s a = {| type := RECENT |}.
Proof. reflexivity. Qed.

(** Whatever is dispatched, the state stays [RECENT]. *)
Lemma state_constant (acts : list Action) (h : Hooks ArticleHeadlineProps) :
  state _ h = initialState ->
  state _ (foldl (fun h' a => dispatch _ a h') h acts) = initialState.
Proof.
  revert h. induction acts as [|a acts IH]; intros h H; [exact H|].
  cbn [foldl]. apply IH. reflexivity.
Qed.

(** The first render shows the [articles] prop, in its order. *)
Lemma first_render (articles : list ArticleHeadlineProps) :
  fst (render _ to articles (mounted _)) = map (li _ to) articles.
Proof. reflexivity. Qed.

(** A later render of the same component finds the memo filled and its
    dependency [state.type] unchanged, and shows the articles of the first
    render, whatever the prop is by then. *)
Lemma later_render (first later : list ArticleHeadlineProps) :
  fst (render _ to later (snd (render _ to first (mounted _))))
  = map (li _ to) first.
Proof. reflexivity. Qed.

End Rendering.

(** C10: the reducer is constantly [RECENT] and the first render lists the
    [articles] prop unchanged; but the memo depends on [state.type] alone, so
    a mounted component that is rendered again with another [articles] prop
    still lists the first one. *)
Theorem stale_articles :
  (forall s a, reducer s a = {| type := RECENT |}) /\
  (forall articles : list string,
     fst (render _ id articles (mounted _)) = map (li _ id) articles) /\
  renders _ id (mounted _) [["/posts/a"; "/posts/b"]; ["/posts/c"]]
  = [map (li _ id) ["/posts/a"; "/posts/b"];
     map (li _ id) ["/posts/a"; "/posts/b"]] /\
  map (li string id) ["/posts/a"; "/posts/b"] <> map (li _ id) ["/posts/c"].
Proof.
  split; [reflexivity | split; [reflexivity | split; [reflexivity |]]].
  discriminate.
Qed.

End RelatedArticleFacts.

(** ** What a sequence of payloads does to the flag *)

Module PayloadFacts.
Import useScrollShower Payloads.
Local Open Scope Z_scope.

Lemma feed_app b xs ys : feed b (xs ++ ys) = feed (feed b xs) ys.
Proof. unfold feed. apply fold_left_app. Qed.

Lemma feed_ignored b infos :
  Forall (fun j => diff j <= 14) infos -> feed b infos = b.
Proof.
  revert b. induction infos as [|[dir d] infos IH]; intros b H; [reflexivity|].
  apply Forall_cons in H as [Hd H]. cbn in Hd.
  cbn [feed fold_left]. fold (feed (callback {| direction := dir; diff := d |} b) infos).
  rewrite (IH _ H). now apply ScrollShowerFacts.callback_under.
Qed.

(** The flag after any sequence of payloads is decided by the last payload
    whose [diff] exceeds 14: it is true when that payload goes [up] and false
    when it goes [down], whatever came before it and whatever smaller moves
    follow it. *)
Theorem last_over_decides (b : bool) (before after : list ScrollInfo)
    (info : ScrollInfo) :
  14 < diff info ->
  Forall (fun j => diff j <= 14) after ->
  feed b (before ++ info :: after) = bool_decide (direction info = up).
Proof.
  intros Hover Hafter.
  rewrite feed_app. cbn [feed fold_left].
  fold (feed b before). fold (feed (callback info (feed b before)) after).
  rewrite (feed_ignored _ _ Hafter).
  now apply ScrollShowerFacts.callback_over.
Qed.

Lemma last_over_decides_witness :
  feed true [ {| direction := up; diff := 40 |};
              {| direction := down; diff := 15 |};
              {| direction := up; diff := 14 |} ] = false.
Proof.
  assert (Hover : 14 < diff {| direction := down; diff := 15 |})
    by (cbn; lia).
  assert (Hafter : Forall (fun j => diff j <= 14)
                     [ {| direction := up; diff := 14 |} ]).
  { constructor; [cbn; lia | constructor]. }
  exact (last_over_decides true [ {| direction := up; diff := 40 |} ]
           [ {| direction := up; diff := 14 |} ]
           {| direction := down; diff := 15 |} Hover Hafter).
Defined.

(** Payloads that all go [up] never hide a shown chrome, and payloads that
    all go [down] never show a hidden one, whatever their [diff]s. *)
Theorem direction_never_reverses (infos : list ScrollInfo) :
  (Forall (fun j => direction j = up) infos -> feed true infos = true) /\
  (Forall (fun j => direction j = down) infos -> feed false infos = false).
Proof.
  split; induction infos as [|[dir d] infos IH]; intros H;
    try reflexivity;
    apply Forall_cons in H as [Hd H]; cbn in Hd; subst dir;
    cbn [feed fold_left].
  - replace (callback {| direction := up; diff := d |} true) with true.
    + exact (IH H).
    + unfold callback; cbn. now destruct (d >? 14).
  - replace (callback {| direction := down; diff := d |} false) with false.
    + exact (IH H).
    + unfold callback; cbn. now destruct (d >? 14).
Qed.

Lemma direction_never_reverses_witness :
  feed true [ {| direction := up; diff := 3 |};
              {| direction := up; diff := 90 |} ] = true.
Proof.
  assert (H : Forall (fun j => direction j = up)
                [ {| direction := up; diff := 3 |};
                  {| direction := up; diff := 90 |} ]).
  { repeat constructor. }
  exact (proj1 (direction_never_reverses _) H).
Defined.

End PayloadFacts.

(** ** Mounted controllers over many events *)

Module MountedFacts.
Import Host Lifecycle LifecycleFacts.

Lemma mount_NoDup f init p0 w :
  NoDup (listeners w) -> NoDup (listeners (mount f init p0 w)).
Proof. intros H. unfold mount, effect. now apply addEventListener_NoDup. Qed.

Lemma mount_listed f init p0 w : f ∈ listeners (mount f init p0 w).
Proof. unfold mount, effect. apply added_listed. Qed.

Lemma mount_keeps_listed f g init p0 w :
  g ∈ listeners w -> g ∈ listeners (mount f init p0 w).
Proof.
  intros H. unfold mount, effect, addEventListener.
  case_decide; cbn; [assumption|]. apply elem_of_app. now left.
Qed.

Lemma mount_controller f init p0 w :
  controllers (mount f init p0 w) !! f =
  Some {| previous := p0; isShow := useScrollShower.initial init |}.
Proof.
  unfold mount, effect, addEventListener.
  case_decide; cbn; apply lookup_insert_eq.
Qed.

Lemma mount_other_controller f g init p0 w :
  g ≠ f -> controllers (mount f init p0 w) !! g = controllers w !! g.
Proof.
  intros H. unfold mount, effect, addEventListener.
  case_decide; cbn; apply lookup_insert_ne; congruence.
Qed.

(** An attached listener is called exactly once per scroll event. *)
Lemma attached_follows ys w (f : nat) c :
  NoDup (listeners w) -> f ∈ listeners w -> controllers w !! f = Some c ->
  controllers (scrolls ys w) !! f = Some (useScrollShower.run c ys).
Proof.
  revert w c. induction ys as [|y ys IH]; intros w c ND Hf Hc; [exact Hc|].
  cbn [scrolls foldl]. fold (scrolls ys (dispatchScroll y w)).
  rewrite ScrollShowerFacts.run_cons.
  apply IH.
  - now rewrite dispatchScroll_listeners.
  - now rewrite dispatchScroll_listeners.
  - rewrite dispatchScroll_listed by assumption. now rewrite Hc.
Qed.

Lemma filter_snoc_absent (f : nat) (ls : list nat) :
  f ∉ ls -> filter (fun g => g ≠ f) (ls ++ [f]) = ls.
Proof.
  intros H. rewrite filter_app, filter_absent by assumption.
  rewrite filter_cons_False by (intros Hne; now apply Hne).
  rewrite filter_nil. apply app_nil_r.
Qed.

Lemma cycle_listeners f init p0 w :
  f ∉ listeners w -> listeners (unmount f (mount f init p0 w)) = listeners w.
Proof.
  intros H. unfold unmount, cleanup, removeEventListener, mount, effect,
    addEventListener.
  case_decide; [contradiction|]. cbn. now apply filter_snoc_absent.
Qed.

(** While the component is mounted, each scroll event reaches its listener
    exactly once, in order: the controller in the world is the one obtained
    by running the listener over the offsets, and the frame rendered from it
    is the render of that flag. *)
Theorem mounted_follows_run (f : nat) (init : option bool) (p0 : Z)
    (ys : list Z) (w : World) :
  NoDup (listeners w) ->
  let c0 := {| previous := p0; isShow := useScrollShower.initial init |} in
  controllers (scrolls ys (mount f init p0 w)) !! f
    = Some (useScrollShower.run c0 ys) /\
  AppFrame.renderIn f (scrolls ys (mount f init p0 w))
    = Some (AppFrame.render (isShow (useScrollShower.run c0 ys))).
Proof.
  intros ND c0.
  assert (E : controllers (scrolls ys (mount f init p0 w)) !! f
              = Some (useScrollShower.run c0 ys)).
  { apply attached_follows.
    - now apply mount_NoDup.
    - apply mount_listed.
    - apply mount_controller. }
  split; [exact E|].
  unfold AppFrame.renderIn, shown. now rewrite E.
Qed.

Lemma mounted_follows_run_witness :
  AppFrame.renderIn 4 (scrolls [30; 10; 0]%Z
                         (mount 4 AppFrame.init 0 (with_listeners [9] emptyWorld)))
  = Some (AppFrame.render
            (isShow (useScrollShower.run
                       {| previous := 0; isShow := true |} [30; 10; 0]%Z))).
Proof.
  assert (ND : NoDup (listeners (with_listeners [9] emptyWorld))).
  { cbn. apply NoDup_singleton. }
  exact (proj2 (mounted_follows_run 4 AppFrame.init 0 [30; 10; 0]%Z
                  (with_listeners [9] emptyWorld) ND)).
Defined.

(** Mounting and unmounting restores the window's listener list, so cycles
    of activation and deactivation, each with its fresh listener, never pile
    listeners up. *)
Theorem cycles_leave_no_listener (fs : list nat) (init : option bool)
    (p0 : Z) (w : World) :
  Forall (fun f => f ∉ listeners w) fs ->
  listeners (foldl (fun w' f => unmount f (mount f init p0 w')) w fs)
  = listeners w.
Proof.
  revert w. induction fs as [|f fs IH]; intros w H; [reflexivity|].
  apply Forall_cons in H as [Hf H]. cbn [foldl].
  rewrite IH.
  - now apply cycle_listeners.
  - rewrite cycle_listeners by assumption. exact H.
Qed.

Lemma cycles_leave_no_listener_witness :
  listeners (foldl (fun w' f => unmount f (mount f (Some true) 0 w'))
               (with_listeners [9] emptyWorld) [1; 2; 1])
  = [9].
Proof.
  assert (H : Forall (fun f => f ∉ listeners (with_listeners [9] emptyWorld))
                [1; 2; 1]).
  { cbn. repeat constructor; intros E; apply list_elem_of_singleton in E;
      discriminate E. }
  exact (cycles_leave_no_listener [1; 2; 1] (Some true) 0
           (with_listeners [9] emptyWorld) H).
Defined.

End MountedFacts.

(** ** The class lists of the chrome *)

Module ChromeFacts.
Import AppFrame.

(** Hiding adds one class and takes none away: in either state the header
    and the bottom navigation carry all the classes they carry when shown,
    in the same order, and when hidden the single hiding class comes after
    them. *)
Theorem hiding_adds_one_class (isShowHeader : bool) :
  String.words (TheHeader (render isShowHeader))
  = String.words (TheHeader (render true))
    ++ (if isShowHeader then [] else ["-translate-y-full"]) /\
  String.words (BottomNavigation (render isShowHeader))
  = String.words (BottomNavigation (render true))
    ++ (if isShowHeader then [] else ["translate-y-full"]) /\
  carries (TheHeader (render isShowHeader)) "translate-y-full" = false /\
  carries (BottomNavigation (render isShowHeader)) "-translate-y-full" = false.
Proof. destruct isShowHeader; vm_compute; repeat split. Qed.

End ChromeFacts.

(** ** The items listed by [RelatedArticle] *)

Module ListingFacts.
Import RelatedArticle.

Section Listing.
Context {ArticleHeadlineProps : Type} (to : ArticleHeadlineProps -> string).

Lemma render_filled (first later : list ArticleHeadlineProps) :
  render _ to later {| state := initialState; memo := Some (RECENT, first) |}
  = (map (li _ to) first,
     {| state := initialState; memo := Some (RECENT, first) |}).
Proof. reflexivity. Qed.

Lemma renders_filled (first : list ArticleHeadlineProps)
    (props : list (list ArticleHeadlineProps)) :
  renders _ to {| state := initialState; memo := Some (RECENT, first) |} props
  = List.repeat (map (li _ to) first) (length props).
Proof.
  induction props as [|later props IH]; [reflexivity|].
  cbn [renders]. rewrite render_filled. cbn [length List.repeat].
  now rewrite IH.
Qed.

(** The items of the first render follow the articles one for one: item [i]
    is keyed by the [to] of article [i] and carries its props. *)
Lemma items_follow_articles (articles : list ArticleHeadlineProps) :
  map (key _) (fst (render _ to articles (mounted _))) = map to articles /\
  map (headline _) (fst (render _ to articles (mounted _))) = articles.
Proof.
  change (fst (render _ to articles (mounted _)))
    with (map (li _ to) articles).
  rewrite !List.map_map. cbn. split; [reflexivity | apply List.map_id].
Qed.

(** Every render of one mounted component lists the articles of its first
    render, whatever the [articles] prop of the later renders is: the memo is
    filled once and its dependency never changes. *)
Theorem every_render_lists_first (first : list ArticleHeadlineProps)
    (later : list (list ArticleHeadlineProps)) :
  renders _ to (mounted _) (first :: later)
  = List.repeat (map (li _ to) first) (S (length later)).
Proof.
  cbn [renders].
  change (render _ to first (mounted _))
    with (map (li _ to) first,
          {| state := initialState; memo := Some (RECENT, first) |}).
  cbn [List.repeat]. now rewrite renders_filled.
Qed.

End Listing.

End ListingFacts.

(** ** The children returned by [wrapper] *)

Module MdxProviderFacts.
Import MdxProvider.

Lemma rest_lookup e (k : string) :
  k ≠ "mdxType" -> k ≠ "originalType" -> rest e !! k = props e !! k.
Proof.
  intros H1 H2. unfold rest.
  rewrite lookup_delete_ne by congruence.
  now rewrite lookup_delete_ne by congruence.
Qed.

Lemma rest_dropped e :
  rest e !! "mdxType" = None /\ rest e !! "originalType" = None.
Proof.
  unfold rest. split.
  - apply lookup_delete_eq.
  - rewrite lookup_delete_ne by discriminate. apply lookup_delete_eq.
Qed.

Lemma rest_rest e :
  delete "mdxType" (delete "originalType" (rest e)) = rest e.
Proof.
  destruct (rest_dropped e) as [H1 H2].
  rewrite (delete_id (rest e) "originalType") by exact H2.
  now apply delete_id.
Qed.

Lemma update_footnotes e :
  isFootnotes e = true ->
  update e = {| type := "div"; key := Some "1"; props := rest e |}.
Proof. intros H. unfold update. now rewrite H. Qed.

Lemma update_other e : isFootnotes e = false -> update e = e.
Proof. intros H. unfold update. now rewrite H. Qed.

Lemma isFootnotes_update e : isFootnotes (update e) = isFootnotes e.
Proof.
  destruct (isFootnotes e) eqn:H.
  - rewrite (update_footnotes e H). unfold isFootnotes in *. cbn.
    now rewrite rest_lookup by discriminate.
  - now rewrite (update_other e H).
Qed.

Lemma update_update e : update (update e) = update e.
Proof.
  destruct (isFootnotes e) eqn:H.
  - rewrite update_footnotes by now rewrite isFootnotes_update.
    rewrite (update_footnotes e H). cbn. f_equal. apply rest_rest.
  - now rewrite !(update_other e H).
Qed.

Lemma updateChild_Some n m :
  updateChild n = Some m -> exists e, n = Elem e /\ m = Elem (update e).
Proof. destruct n as [e|s]; cbn; [|discriminate]. intros [= <-]. eauto. Qed.

(** On an array of elements [wrapper] returns as many children, in the same
    order: the child at each position is the update of the child that was
    there. *)
Theorem wrapper_keeps_positions (ns out : list Node) :
  wrapper (Array ns) = Some out ->
  length out = length ns /\
  (forall (i : nat) n, ns !! i = Some n ->
     exists e, n = Elem e /\ out !! i = Some (Elem (update e))).
Proof.
  cbn. intros H. split.
  - symmetry. now apply (length_mapM updateChild).
  - apply mapM_Some_1 in H. intros i n Hn.
    destruct (Forall2_lookup_l _ _ _ _ _ H Hn) as (m & Hm & Hnm).
    apply updateChild_Some in Hnm as (e & -> & ->). eauto.
Qed.

Lemma wrapper_keeps_positions_witness :
  let p := {| type := "p"; key := None; props := ∅ |} in
  let n := {| type := "MDXCreateElement"; key := None;
              props := <[ "mdxType" := PString "div" ]>
                         {[ "className" := PString "footnotes" ]} |} in
  let out := [Elem p; Elem (update n)] in
  wrapper (Array [Elem p; Elem n]) = Some out /\
  length out = 2%nat /\
  exists e, Elem n = Elem e /\ out !! 1%nat = Some (Elem (update e)).
Proof.
  cbv zeta.
  assert (H : wrapper
                (Array [Elem {| type := "p"; key := None; props := ∅ |};
                        Elem {| type := "MDXCreateElement"; key := None;
                                props := <[ "mdxType" := PString "div" ]>
                                           {[ "className" := PString "footnotes" ]} |}])
              = Some [Elem {| type := "p"; key := None; props := ∅ |};
                      Elem (update
                              {| type := "MDXCreateElement"; key := None;
                                 props := <[ "mdxType" := PString "div" ]>
                                            {[ "className" := PString "footnotes" ]} |})])
    by reflexivity.
  split; [exact H | split].
  - exact (proj1 (wrapper_keeps_positions _ _ H)).
  - exact (proj2 (wrapper_keeps_positions _ _ H) 1%nat _ eq_refl).
Defined.

(** Children whose [className] is not exactly ['footnotes'] come back
    untouched: on an array of such elements [wrapper] returns the array as it
    was. *)
Theorem wrapper_without_footnotes (es : list Element) :
  Forall (fun e => props e !! "className" ≠ Some (PString "footnotes")) es ->
  wrapper (Array (Elem <$> es)) = Some (Elem <$> es).
Proof.
  intros H. cbn. apply mapM_Some_2.
  induction H as [|e es He _ IH]; cbn; constructor; [|exact IH].
  cbn. rewrite update_other; [reflexivity|].
  unfold isFootnotes. now apply bool_decide_eq_false.
Qed.

Lemma wrapper_without_footnotes_witness :
  let e := {| type := "div"; key := None;
              props := {[ "className" := PString "footnotes wide" ]} |} in
  wrapper (Array [Elem e]) = Some [Elem e].
Proof.
  cbv zeta.
  refine (wrapper_without_footnotes
            [ {| type := "div"; key := None;
                 props := {[ "className" := PString "footnotes wide" ]} |} ] _).
  constructor; [|constructor]. cbn. rewrite lookup_singleton_eq. discriminate.
Defined.

(** A child whose [className] is ['footnotes'] becomes a [div] with key [1]
    that has lost [mdxType] and [originalType] and kept every other prop,
    its [className] among them. *)
Theorem footnotes_become_div (e : Element) :
  props e !! "className" = Some (PString "footnotes") ->
  type (update e) = "div" /\ key (update e) = Some "1" /\
  props (update e) !! "mdxType" = None /\
  props (update e) !! "originalType" = None /\
  props (update e) !! "className" = Some (PString "footnotes") /\
  (forall k : string, k ≠ "mdxType" -> k ≠ "originalType" ->
     props (update e) !! k = props e !! k).
Proof.
  intros H.
  assert (F : isFootnotes e = true).
  { unfold isFootnotes. now apply bool_decide_eq_true. }
  rewrite (update_footnotes e F). cbn.
  destruct (rest_dropped e) as [H1 H2].
  repeat split; try assumption.
  - now rewrite rest_lookup by discriminate.
  - intros k Hk1 Hk2. now apply rest_lookup.
Qed.

Lemma footnotes_become_div_witness :
  let e := {| type := "MDXCreateElement"; key := None;
              props := <[ "mdxType" := PString "div" ]>
                         {[ "className" := PString "footnotes" ]} |} in
  type (update e) = "div" /\ key (update e) = Some "1" /\
  props (update e) !! "mdxType" = None.
Proof.
  cbv zeta.
  assert (H : props {| type := "MDXCreateElement"; key := None;
                       props := <[ "mdxType" := PString "div" ]>
                                  {[ "className" := PString "footnotes" ]} |}
              !! "className" = Some (PString "footnotes")).
  { cbn. rewrite lookup_insert_ne by discriminate.
    apply lookup_singleton_eq. }
  destruct (footnotes_become_div _ H) as (Ht & Hk & Hm & _).
  exact (conj Ht (conj Hk Hm)).
Defined.

(** [wrapper] is idempotent: applied to the children it returned, it returns
    them again. *)
Theorem wrapper_idempotent (ns out : list Node) :
  wrapper (Array ns) = Some out -> wrapper (Array out) = Some out.
Proof.
  cbn. intros H. apply mapM_Some_1 in H. apply mapM_Some_2.
  induction H as [|n m ns out Hnm _ IH]; constructor; [|exact IH].
  apply updateChild_Some in Hnm as (e & -> & ->). cbn.
  now rewrite update_update.
Qed.

Lemma wrapper_idempotent_witness :
  let e := {| type := "MDXCreateElement"; key := None;
              props := <[ "mdxType" := PString "div" ]>
                         {[ "className" := PString "footnotes" ]} |} in
  wrapper (Array [Elem (update e)]) = Some [Elem (update e)].
Proof.
  cbv zeta.
  refine (wrapper_idempotent
            [Elem {| type := "MDXCreateElement"; key := None;
                     props := <[ "mdxType" := PString "div" ]>
                                {[ "className" := PString "footnotes" ]} |}]
            _ _).
  cbn. reflexivity.
Defined.

(** Every replaced child gets the same key [1]: when two children of the
    array carry ['footnotes'], two children of the result share a key. *)
Theorem footnotes_share_key (ns out : list Node) (i j : nat)
    (e1 e2 : Element) :
  wrapper (Array ns) = Some out ->
  i ≠ j ->
  ns !! i = Some (Elem e1) -> ns !! j = Some (Elem e2) ->
  isFootnotes e1 = true -> isFootnotes e2 = true ->
  keyOf <$> out !! i = Some (Some "1") /\
  keyOf <$> out !! j = Some (Some "1") /\
  ¬ NoDup (keyOf <$> out).
Proof.
  cbn. intros H Hij Hi Hj F1 F2. apply mapM_Some_1 in H.
  destruct (Forall2_lookup_l _ _ _ _ _ H Hi) as (m1 & Hm1 & E1).
  destruct (Forall2_lookup_l _ _ _ _ _ H Hj) as (m2 & Hm2 & E2).
  cbn in E1, E2. injection E1 as <-. injection E2 as <-.
  rewrite (update_footnotes e1 F1) in Hm1.
  rewrite (update_footnotes e2 F2) in Hm2.
  assert (K1 : (keyOf <$> out) !! i = Some (Some "1"))
    by now rewrite list_lookup_fmap, Hm1.
  assert (K2 : (keyOf <$> out) !! j = Some (Some "1"))
    by now rewrite list_lookup_fmap, Hm2.
  split; [now rewrite Hm1 | split; [now rewrite Hm2 |]].
  intros ND. apply Hij. exact (NoDup_lookup _ _ _ _ ND K1 K2).
Qed.

Lemma footnotes_share_key_witness :
  let e := {| type := "MDXCreateElement"; key := None;
              props := {[ "className" := PString "footnotes" ]} |} in
  wrapper (Array [Elem e; Elem e]) = Some [Elem (update e); Elem (update e)] /\
  ¬ NoDup (keyOf <$> [Elem (update e); Elem (update e)]).
Proof.
  cbv zeta.
  assert (H : wrapper
                (Array [Elem {| type := "MDXCreateElement"; key := None;
                                props := {[ "className" := PString "footnotes" ]} |};
                        Elem {| type := "MDXCreateElement"; key := None;
                                props := {[ "className" := PString "footnotes" ]} |}])
              = Some [Elem (update {| type := "MDXCreateElement"; key := None;
                                      props := {[ "className" := PString "footnotes" ]} |});
                      Elem (update {| type := "MDXCreateElement"; key := None;
                                      props := {[ "className" := PString "footnotes" ]} |})])
    by reflexivity.
  assert (Hne : 0%nat ≠ 1%nat) by discriminate.
  split; [exact H |].
  exact (proj2 (proj2 (footnotes_share_key _ _ 0 1 _ _ H Hne
                         eq_refl eq_refl eq_refl eq_refl))).
Defined.

(** [wrapper] raises a [TypeError] unless [children] is an array of
    elements: it fails when there is no child, when there is a single child
    (React then passes the child itself, which has no [map]), and when the
    array holds a child that is not an element; on an array of elements it
    always returns. *)
Theorem wrapper_needs_element_array :
  wrapper Absent = None /\
  (forall n, wrapper (Single n) = None) /\
  (forall ns s, Text s ∈ ns -> wrapper (Array ns) = None) /\
  (forall es : list Element, is_Some (wrapper (Array (Elem <$> es)))).
Proof.
  split; [reflexivity | split; [reflexivity | split]].
  - intros ns s H. cbn. apply mapM_None_2.
    apply Exists_exists. exists (Text s). split; [exact H | reflexivity].
  - intros es. cbn. apply mapM_is_Some_2.
    apply Forall_fmap. apply Forall_true. intros e. cbn. eauto.
Qed.

Lemma wrapper_needs_element_array_witness :
  wrapper (Array [Elem {| type := "p"; key := None; props := ∅ |};
                  Text "note"]) = None.
Proof.
  refine (proj1 (proj2 (proj2 wrapper_needs_element_array)) _ "note" _).
  apply elem_of_cons. right. apply elem_of_cons. now left.
Defined.

End MdxProviderFacts.

(** ** What a call of the listener does to the world *)

Module OperationFacts.
Import Host Lifecycle Operations.

Lemma with_controllers_same w : with_controllers (controllers w) w = w.
Proof. now destruct w. Qed.

(** The operations of the callback are its calls of [changeShow]: applied to
    the flag cell they give what the callback gives. *)
Lemma callbackOps_callback info b :
  cellAfter (callbackOps info) b = useScrollShower.callback info b.
Proof.
  unfold callbackOps, useScrollShower.callback.
  destruct ((diff info >? 14)%Z && bool_decide (direction info = up));
    [reflexivity|].
  destruct ((diff info >? 14)%Z && bool_decide (direction info = down));
    reflexivity.
Qed.

Lemma callbackOps_own info : Forall (fun op => own op = true) (callbackOps info).
Proof.
  unfold callbackOps.
  destruct ((diff info >? 14)%Z && bool_decide (direction info = up));
    [repeat constructor|].
  destruct ((diff info >? 14)%Z && bool_decide (direction info = down));
    repeat constructor.
Qed.

Lemma program_own f y w : Forall (fun op => own op = true) (program f y w).
Proof.
  unfold program. destruct (controllers w !! f) as [c|]; [|constructor].
  unfold listenerOps. apply Forall_app. split.
  - apply callbackOps_own.
  - repeat constructor.
Qed.

(** An operation of the listener's own leaves the rest of the world alone. *)
Lemma perform_own_frame f op w :
  own op = true ->
  listeners (perform f op w) = listeners w /\
  storage (perform f op w) = storage w /\
  requests (perform f op w) = requests w /\
  (forall g : nat, g ≠ f ->
     controllers (perform f op w) !! g = controllers w !! g).
Proof.
  destruct op; cbn; try discriminate; intros _; repeat split;
    intros g Hg; apply lookup_alter_ne; congruence.
Qed.

Lemma execute_own_frame f ops w :
  Forall (fun op => own op = true) ops ->
  listeners (execute f ops w) = listeners w /\
  storage (execute f ops w) = storage w /\
  requests (execute f ops w) = requests w /\
  (forall g : nat, g ≠ f ->
     controllers (execute f ops w) !! g = controllers w !! g).
Proof.
  intros H. revert w. induction H as [|op ops Hop _ IH]; intros w; [easy|].
  cbn [execute foldl]. fold (execute f ops (perform f op w)).
  destruct (IH (perform f op w)) as (-> & -> & -> & IHc).
  destruct (perform_own_frame f op w Hop) as (-> & -> & -> & Hc).
  repeat split. intros g Hg. now rewrite IHc, Hc.
Qed.

(** Operations of the listener's own come down to one update of its
    controller. *)
Lemma execute_own f ops w :
  Forall (fun op => own op = true) ops ->
  execute f ops w
  = with_controllers (alter (controllerAfter ops) f (controllers w)) w.
Proof.
  intros H. revert w. induction H as [|op ops Hop _ IH]; intros w.
  - cbn. rewrite alter_id by reflexivity. now rewrite with_controllers_same.
  - cbn [execute foldl]. fold (execute f ops (perform f op w)).
    rewrite IH. destruct op; cbn in Hop; try discriminate; cbn;
      unfold with_controllers; cbn; f_equal;
      rewrite alter_alter_eq; apply alter_ext; reflexivity.
Qed.

(** The operations of one call update the controller as the listener
    does. *)
Lemma controllerAfter_listenerOps y c :
  controllerAfter (listenerOps callbackOps y (previous c)) c
  = useScrollShower.fn y c.
Proof.
  unfold listenerOps, controllerAfter. rewrite fold_left_app. cbn.
  unfold useScrollShower.fn, Scroll.scrollInfoEvent. unfold setPrevious.
  f_equal. rewrite <- callbackOps_callback.
  unfold callbackOps.
  destruct ((diff (Scroll.sample (previous c) y) >? 14)%Z
            && bool_decide (direction (Scroll.sample (previous c) y) = up));
    [reflexivity|].
  destruct ((diff (Scroll.sample (previous c) y) >? 14)%Z
            && bool_decide (direction (Scroll.sample (previous c) y) = down));
    reflexivity.
Qed.

(** Executing the operations of one call is the call of the listener. *)
Lemma call_invoke y w f : call y w f = invoke y w f.
Proof.
  unfold call, invoke. rewrite execute_own by apply program_own.
  f_equal. apply alter_ext. intros c Hc.
  unfold program. rewrite Hc. apply controllerAfter_listenerOps.
Qed.

(** A whole scroll event is the calls of the registered listeners, in
    order. *)
Lemma dispatchScroll_calls y w :
  dispatchScroll y w = foldl (call y) w (listeners w).
Proof.
  unfold dispatchScroll. generalize (listeners w) as ls. intros ls.
  revert w. induction ls as [|g ls IH]; intros w; [reflexivity|].
  cbn [foldl]. now rewrite call_invoke, IH.
Qed.

Lemma calls_own_frame y ls w :
  listeners (foldl (call y) w ls) = listeners w /\
  storage (foldl (call y) w ls) = storage w /\
  requests (foldl (call y) w ls) = requests w /\
  (forall g : nat, g ∉ ls ->
     controllers (foldl (call y) w ls) !! g = controllers w !! g).
Proof.
  revert w. induction ls as [|f ls IH]; intros w; [easy|].
  cbn [foldl].
  destruct (IH (call y w f)) as (-> & -> & -> & IHc).
  destruct (execute_own_frame f (program f y w) w (program_own f y w))
    as (Hl & Hs & Hr & Hc).
  fold (call y w f) in Hl, Hs, Hr, Hc.
  repeat split; try assumption.
  intros g Hg. apply not_elem_of_cons in Hg as [Hne Hg].
  now rewrite (IHc g Hg), (Hc g Hne).
Qed.

(** C7: one call of the listener performs calls of [changeShow] and the
    store of its previous position, and no other operation: no storage
    write, no network request, no change to the listeners.  It therefore
    changes the two fields of its own controller and nothing else: the
    listener list, the storage, the requests issued and every other
    controller are as before.  The same holds for a whole scroll event, which
    leaves every controller that is not attached untouched. *)
Theorem listener_touches_own_state (y : Z) (w : World) (f : nat) :
  Forall (fun op => own op = true) (program f y w) /\
  call y w f = invoke y w f /\
  controllers (call y w f) !! f =
    useScrollShower.fn y <$> controllers w !! f /\
  listeners (call y w f) = listeners w /\
  storage (call y w f) = storage w /\
  requests (call y w f) = requests w /\
  (forall g : nat, g ≠ f ->
     controllers (call y w f) !! g = controllers w !! g) /\
  dispatchScroll y w = foldl (call y) w (listeners w) /\
  listeners (dispatchScroll y w) = listeners w /\
  storage (dispatchScroll y w) = storage w /\
  requests (dispatchScroll y w) = requests w /\
  (forall g : nat, g ∉ listeners w ->
     controllers (dispatchScroll y w) !! g = controllers w !! g).
Proof.
  pose proof (program_own f y w) as Hown.
  destruct (execute_own_frame f (program f y w) w Hown) as (Hl & Hs & Hr & Hc).
  fold (call y w f) in Hl, Hs, Hr, Hc.
  destruct (calls_own_frame y (listeners w) w) as (Dl & Ds & Dr & Dc).
  rewrite <- dispatchScroll_calls in Dl, Ds, Dr, Dc.
  repeat split; try assumption.
  - apply call_invoke.
  - rewrite call_invoke. cbn. apply lookup_alter_eq.
  - apply dispatchScroll_calls.
Qed.

Lemma listener_touches_own_state_witness :
  let w := mount 2 None 50 (mount 1 (Some true) 0 emptyWorld) in
  2 ≠ 1 /\
  program 1 40 w = [SetShow false; SetPrevious 40] /\
  controllers (call 40 w 1) !! 2 = controllers w !! 2 /\
  controllers (call 40 w 1) !! 1 =
    Some {| previous := 40; isShow := false |}.
Proof.
  cbv zeta.
  assert (H : 2 ≠ 1) by discriminate.
  destruct (listener_touches_own_state 40
              (mount 2 None 50 (mount 1 (Some true) 0 emptyWorld)) 1)
    as (_ & _ & _ & _ & _ & _ & Hother & _).
  split; [exact H | split; [reflexivity | split]].
  - exact (Hother 2 H).
  - vm_compute. reflexivity.
Defined.

End OperationFacts.
